(** * Lifecycle of the group service process (main.go)

    The development embeds the concurrent part of [main], lines 84-131 of
    main.go: the two listener goroutines, the channels [errChan] and [quit],
    the [select] and the two [Shutdown] calls, and [startHTTPSServer] with
    the path functions it calls.  A state holds the program point of main
    and of each goroutine, the two channels, the [inShutdown] flag of each
    server and the trace of what has happened; [exec] makes one move, chosen
    by the scheduler and the environment, and [main] runs a schedule from
    the state in which main has reached the select.  The set-up of lines
    29-82 (configuration, database, storage, message queue) comes before;
    it is embedded apart, in [Setup], with the calls into the other
    packages answered by a [World]. *)

From stdpp Require Import base decidable option list strings gmap.
From Stdlib Require Import Ascii ZArith Lia.

Local Open Scope string_scope.
Local Open Scope list_scope.
#[local] Set Warnings "-clear-no-such-hyp".

(** ** Library code used by the program: [strings.Join], [filepath.Clean],
       [filepath.Join] (Unix), [os.Stat] *)

Module strings.

(** [strings.Join(elems, sep)] *)
Fixpoint Join (elems : list string) (sep : string) : string :=
  match elems with
  | [] => ""
  | [e] => e
  | e :: rest => e +:+ sep +:+ Join rest sep
  end.

End strings.

Module filepath.

Definition Separator : ascii := "/"%char.

Definition IsPathSeparator (c : ascii) : bool := bool_decide (c = Separator).

(** The path elements between separators, empty ones included:
    ["/a//b"] gives [[""; "a"; ""; "b"]]. *)
Fixpoint elements (path : string) : list string :=
  match path with
  | EmptyString => [""]
  | String c rest =>
      if IsPathSeparator c then "" :: elements rest
      else match elements rest with
           | [] => [String c ""]
           | e :: es => String c e :: es
           end
  end.

(** [out.w > dotdot] in [Clean]: the output ends in a real element, one
    that a [..] may cancel.  [out] holds the elements written so far, the
    last one first. *)
Definition can_backtrack (out : list string) : bool :=
  match out with
  | [] => false
  | top :: _ => negb (bool_decide (top = ".."))
  end.

(** One turn of the loop of [Clean], on the path element [elem]. *)
Definition clean_element (rooted : bool) (out : list string) (elem : string)
  : list string :=
  if bool_decide (elem = "") then out             (* empty path element *)
  else if bool_decide (elem = ".") then out       (* . element *)
  else if bool_decide (elem = "..") then          (* .. element *)
    if can_backtrack out then tail out
    else if negb rooted then ".." :: out
    else out
  else elem :: out.                               (* real path element *)

Definition is_rooted (path : string) : bool :=
  match path with
  | String c _ => IsPathSeparator c
  | EmptyString => false
  end.

(** [filepath.Clean(path)] on Unix, where the volume name is empty. *)
Definition Clean (path : string) : string :=
  if bool_decide (path = "") then "."
  else
    let rooted := is_rooted path in
    let out := fold_left (clean_element rooted) (elements path) [] in
    let body := strings.Join (rev out) "/" in
    if rooted then "/" +:+ body
    else if bool_decide (body = "") then "." else body.

(** [filepath.Join(elem...)]: the elements from the first non-empty one on
    are joined with the separator and cleaned; all empty gives [""]. *)
Fixpoint Join (elem : list string) : string :=
  match elem with
  | [] => ""
  | e :: rest =>
      if bool_decide (e = "") then Join rest
      else Clean (strings.Join elem "/")
  end.

End filepath.


(** ** Data of the program *)

(** The two [*http.Server] values of [main]. *)
Inductive Server := httpServer | httpsServer.

#[global] Instance Server_eq_dec : EqDecision Server.
Proof. solve_decision. Defined.

(** The [error] values that travel through the program. *)
Inductive error :=
| ErrServerClosed                  (* http.ErrServerClosed *)
| ErrListen (msg : string)         (* the listener could not be started *)
| ErrAccept (msg : string)         (* the accept loop failed *)
| ErrDeadlineExceeded              (* context.DeadlineExceeded *)
| ErrClose (msg : string)          (* closing a listener failed *)
| ErrNotExist (name : string).     (* os.Stat found no file *)

#[global] Instance error_eq_dec : EqDecision error.
Proof. solve_decision. Defined.

Module os.

(** [os.Stat(name)]: [fs] is the set of the paths on which it succeeds; the
    program looks at the error alone. *)
Definition Stat (fs : gset string) (name : string) : option error :=
  if decide (name ∈ fs) then None else Some (ErrNotExist name).

End os.

Inductive Signal := SIGINT | SIGTERM.

(** [time.Duration] counts nanoseconds. *)
Definition Second : Z := 1000000000.

(** A [context.Context], by the time left until its deadline when it is
    made; [None] when it has no deadline. *)
Record Context := { deadline : option Z }.

Definition Background : Context := {| deadline := None |}.

Definition WithTimeout (parent : Context) (d : Z) : Context :=
  {| deadline := Some (match deadline parent with
                       | Some p => Z.min p d
                       | None => d
                       end) |}.

(** The fields of the configuration that [main] reads from line 84 on. *)
Record Config := {
  HTTPPort : string;
  HTTPSPort : string;
  CertDir : string;
}.

(** [fmt.Sprintf(":%s", port)] *)
Definition Addr (port : string) : string := ":" +:+ port.

(** *** Go channels *)

Module Chan.

Record t (A : Type) := Make { cap : nat; buf : list A }.
Arguments Make {A} _ _.
Arguments cap {A} _.
Arguments buf {A} _.

(** [make(chan A, n)]; [make(chan A)] is [make 0]. *)
Definition make {A} (n : nat) : t A := Make n [].

(** A send that does not need a receiver: there is room in the buffer. *)
Definition offer {A} (c : t A) (x : A) : option (t A) :=
  if decide (length (buf c) < cap c)%nat
  then Some (Make (cap c) (buf c ++ [x]))
  else None.

(** A receive from the buffer. *)
Definition poll {A} (c : t A) : option (A * t A) :=
  match buf c with
  | [] => None
  | x :: rest => Some (x, Make (cap c) rest)
  end.

End Chan.

(** *** What a run shows *)

Inductive Event :=
| EvLog (msg : string)                          (* log.Printf *)
| EvListenAndServe (srv : Server) (tls : option (string * string))
                                                (* ListenAndServe, or ListenAndServeTLS
                                                   with its two files, is entered *)
| EvServeReturn (srv : Server) (err : error)    (* ... and has returned [err] *)
| EvSend (srv : Server) (err : error)           (* [errChan <- err] has gone through *)
| EvSignal (sig : Signal)                       (* the OS delivers a signal *)
| EvSelectQuit (sig : Signal)                   (* select: [case <-quit] *)
| EvSelectErr (err : error)                     (* select: [case err := <-errChan] *)
| EvShutdownCall (srv : Server) (ctx : Context) (* srv.Shutdown(ctx) is entered *)
| EvShutdownReturn (srv : Server) (res : option error)
| EvExit (code : Z).                            (* the process ends *)

#[global] Instance Context_eq_dec : EqDecision Context.
Proof. solve_decision. Defined.
#[global] Instance Signal_eq_dec : EqDecision Signal.
Proof. solve_decision. Defined.
#[global] Instance Event_eq_dec : EqDecision Event.
Proof. solve_decision. Defined.

(** Where the goroutine of a listener stands. *)
Inductive TaskPc :=
| TSpawned                (* [go ...] done, nothing run yet *)
| TServing                (* inside ListenAndServe[TLS], accepting *)
| TSend (err : error)     (* at [errChan <- err] *)
| TDone.                  (* returned *)

(** Where [main] stands, from line 101 on. *)
Inductive MainPc :=
| MSelect                          (* waiting in the select *)
| MShutdownHTTP (ctx : Context)    (* line 105, inside httpServer.Shutdown(ctx) *)
| MShutdownHTTPS (ctx : Context)   (* line 108, inside httpsServer.Shutdown(ctx) *)
| MExited (code : Z).              (* os.Exit(code), or main has returned *)

Record State := {
  main_pc : MainPc;
  http_pc : TaskPc;           (* the goroutine of line 96 *)
  https_pc : TaskPc;          (* the goroutine of line 95 *)
  http_inShutdown : bool;     (* httpServer.inShutdown *)
  https_inShutdown : bool;    (* httpsServer.inShutdown *)
  errChan : Chan.t error;
  quit : Chan.t Signal;
  trace : list Event;         (* what has happened, oldest first *)
}.

Definition task (s : State) (srv : Server) : TaskPc :=
  match srv with httpServer => http_pc s | httpsServer => https_pc s end.

Definition inShutdown (s : State) (srv : Server) : bool :=
  match srv with httpServer => http_inShutdown s | httpsServer => https_inShutdown s end.

Definition set_task (srv : Server) (pc : TaskPc) (s : State) : State :=
  match srv with
  | httpServer =>
      {| main_pc := main_pc s; http_pc := pc; https_pc := https_pc s;
         http_inShutdown := http_inShutdown s; https_inShutdown := https_inShutdown s;
         errChan := errChan s; quit := quit s; trace := trace s |}
  | httpsServer =>
      {| main_pc := main_pc s; http_pc := http_pc s; https_pc := pc;
         http_inShutdown := http_inShutdown s; https_inShutdown := https_inShutdown s;
         errChan := errChan s; quit := quit s; trace := trace s |}
  end.

Definition set_inShutdown (srv : Server) (s : State) : State :=
  match srv with
  | httpServer =>
      {| main_pc := main_pc s; http_pc := http_pc s; https_pc := https_pc s;
         http_inShutdown := true; https_inShutdown := https_inShutdown s;
         errChan := errChan s; quit := quit s; trace := trace s |}
  | httpsServer =>
      {| main_pc := main_pc s; http_pc := http_pc s; https_pc := https_pc s;
         http_inShutdown := http_inShutdown s; https_inShutdown := true;
         errChan := errChan s; quit := quit s; trace := trace s |}
  end.

Definition set_main (pc : MainPc) (s : State) : State :=
  {| main_pc := pc; http_pc := http_pc s; https_pc := https_pc s;
     http_inShutdown := http_inShutdown s; https_inShutdown := https_inShutdown s;
     errChan := errChan s; quit := quit s; trace := trace s |}.

Definition set_errChan (c : Chan.t error) (s : State) : State :=
  {| main_pc := main_pc s; http_pc := http_pc s; https_pc := https_pc s;
     http_inShutdown := http_inShutdown s; https_inShutdown := https_inShutdown s;
     errChan := c; quit := quit s; trace := trace s |}.

Definition set_quit (c : Chan.t Signal) (s : State) : State :=
  {| main_pc := main_pc s; http_pc := http_pc s; https_pc := https_pc s;
     http_inShutdown := http_inShutdown s; https_inShutdown := https_inShutdown s;
     errChan := errChan s; quit := c; trace := trace s |}.

(** The events [evs] happen, in this order. *)
Definition emit (evs : list Event) (s : State) : State :=
  {| main_pc := main_pc s; http_pc := http_pc s; https_pc := https_pc s;
     http_inShutdown := http_inShutdown s; https_inShutdown := https_inShutdown s;
     errChan := errChan s; quit := quit s; trace := trace s ++ evs |}.

(** ** The program *)

(** What the environment decides when a listener is started, and when a
    pending [Shutdown] ends. *)
Inductive ListenOutcome :=
| Listening                     (* bound, the accept loop runs *)
| ListenFails (msg : string).   (* address in use, invalid address, bad key pair, ... *)

Inductive ShutdownOutcome :=
| Drained                       (* all connections became idle in time *)
| DeadlineExpired               (* [<-ctx.Done()] came first *)
| CloseFails (msg : string).    (* idle, but closing a listener had failed *)

(** One move of the scheduler or of the environment. *)
Inductive Action :=
| AGo (srv : Server) (o : ListenOutcome)   (* the goroutine of [srv] runs until it blocks *)
| AServeReturn (srv : Server) (msg : string) (* its accept loop ends *)
| ASend (srv : Server)                     (* its [errChan <- err] goes through *)
| ASignal (sig : Signal)                   (* the OS delivers [sig] *)
| ASelectQuit                              (* main takes [case <-quit] *)
| ASelectErr                               (* main takes [case err := <-errChan] from the buffer *)
| AShutdownReturn (o : ShutdownOutcome).   (* the pending Shutdown returns *)

Section Program.

Variable conf : Config.
(** The paths at which [os.Stat] finds a file. *)
Variable fs : gset string.

(** [log.Fatal]: print, then [os.Exit(1)]. *)
Definition log_Fatal (s : State) : State :=
  set_main (MExited 1) (emit [EvExit 1] s).

(** The value a returning [ListenAndServe] hands to [errChan <- ...]. *)
Definition serve_returns (srv : Server) (err : error) (s : State) : State :=
  set_task srv (TSend err) (emit [EvServeReturn srv err] s).

(** [srv.ListenAndServe()] and [srv.ListenAndServeTLS(cert, key)], up to the
    accept loop: a server that is shutting down returns [ErrServerClosed]
    at once, a failed start returns its error. *)
Definition ListenAndServe (srv : Server) (tls : option (string * string))
    (o : ListenOutcome) (s : State) : State :=
  let s := emit [EvListenAndServe srv tls] s in
  if inShutdown s srv then serve_returns srv ErrServerClosed s
  else match o with
       | ListenFails msg => serve_returns srv (ErrListen msg) s
       | Listening => set_task srv TServing s
       end.

Definition no_material_notice (certDir : string) : string :=
  "Couldn't start https server. No cert.pem or key.pem in " +:+ certDir.

(** [startHTTPSServer(httpsServer, certDir, errChan)], lines 117-130, up to
    the accept loop. *)
Definition startHTTPSServer (certDir : string) (o : ListenOutcome) (s : State)
  : State :=
  let cert := filepath.Join [certDir +:+ "cert.pem"] in
  if os.Stat fs cert is Some _ then
    set_task httpsServer TDone (emit [EvLog (no_material_notice certDir)] s)
  else
    let key := filepath.Join [certDir +:+ "key.pem"] in
    if os.Stat fs key is Some _ then
      set_task httpsServer TDone (emit [EvLog (no_material_notice certDir)] s)
    else
      ListenAndServe httpsServer (Some (cert, key)) o
        (emit [EvLog ("HTTPS Server starting on: " +:+ Addr (HTTPSPort conf))] s).

(** Lines 95 and 96: what each goroutine runs. *)
Definition go (srv : Server) (o : ListenOutcome) (s : State) : State :=
  match srv with
  | httpsServer => startHTTPSServer (CertDir conf) o s
  | httpServer => ListenAndServe httpServer None o s
  end.

(** The accept loop of [srv] ends: with [ErrServerClosed] when the server
    is shutting down, with the accept error otherwise. *)
Definition Serve_ends (srv : Server) (msg : string) (s : State) : State :=
  serve_returns srv (if inShutdown s srv then ErrServerClosed else ErrAccept msg) s.

(** [errChan <- err] in the goroutine of [srv].  It goes through when the
    buffer has room, or when main waits in the select and takes the value
    (lines 111-112); else the goroutine stays blocked. *)
Definition send (srv : Server) (err : error) (s : State) : option State :=
  match Chan.offer (errChan s) err with
  | Some c => Some (set_task srv TDone (emit [EvSend srv err] (set_errChan c s)))
  | None =>
      match main_pc s with
      | MSelect =>
          Some (log_Fatal (emit [EvSend srv err; EvSelectErr err]
                             (set_task srv TDone s)))
      | _ => None
      end
  end.

(** [signal.Notify(quit, ...)]: the signal is put on [quit] when there is
    room and dropped otherwise. *)
Definition Notify (sig : Signal) (s : State) : State :=
  let s := emit [EvSignal sig] s in
  match Chan.offer (quit s) sig with
  | Some q => set_quit q s
  | None => s
  end.

(** [srv.Shutdown(ctx)] is entered: the server is marked as shutting down
    and its listeners are closed. *)
Definition Shutdown_call (srv : Server) (ctx : Context) (s : State) : State :=
  set_inShutdown srv (emit [EvShutdownCall srv ctx] s).

(** What [Shutdown(ctx)] returns; [ctx.Err()] needs a deadline. *)
Definition Shutdown_result (ctx : Context) (o : ShutdownOutcome)
  : option (option error) :=
  match o with
  | Drained => Some None
  | CloseFails msg => Some (Some (ErrClose msg))
  | DeadlineExpired =>
      match deadline ctx with
      | Some _ => Some (Some ErrDeadlineExceeded)
      | None => None
      end
  end.

(** Lines 102-105: [case <-quit]. *)
Definition select_quit (s : State) : option State :=
  '(sig, q) ← Chan.poll (quit s);
  let ctx := WithTimeout Background (5 * Second) in
  Some (set_main (MShutdownHTTP ctx)
          (Shutdown_call httpServer ctx (emit [EvSelectQuit sig] (set_quit q s)))).

(** Lines 111-112: [case err := <-errChan], the value taken from the buffer. *)
Definition select_err (s : State) : option State :=
  '(err, c) ← Chan.poll (errChan s);
  Some (log_Fatal (emit [EvSelectErr err] (set_errChan c s))).

(** Lines 105-108: [httpServer.Shutdown(ctx)] has returned [res]. *)
Definition after_http_Shutdown (ctx : Context) (res : option error) (s : State)
  : State :=
  let s := emit [EvShutdownReturn httpServer res] s in
  match res with
  | Some _ => log_Fatal s
  | None => set_main (MShutdownHTTPS ctx) (Shutdown_call httpsServer ctx s)
  end.

(** Lines 108-115: [httpsServer.Shutdown(ctx)] has returned [res]; with no
    error main returns and the process ends with status 0. *)
Definition after_https_Shutdown (res : option error) (s : State) : State :=
  let s := emit [EvShutdownReturn httpsServer res] s in
  match res with
  | Some _ => log_Fatal s
  | None => set_main (MExited 0) (emit [EvExit 0] s)
  end.

Definition exec (s : State) (a : Action) : option State :=
  match main_pc s with
  | MExited _ => None
  | pc =>
      match a with
      | AGo srv o =>
          match task s srv with TSpawned => Some (go srv o s) | _ => None end
      | AServeReturn srv msg =>
          match task s srv with TServing => Some (Serve_ends srv msg s) | _ => None end
      | ASend srv =>
          match task s srv with TSend err => send srv err s | _ => None end
      | ASignal sig => Some (Notify sig s)
      | ASelectQuit =>
          match pc with MSelect => select_quit s | _ => None end
      | ASelectErr =>
          match pc with MSelect => select_err s | _ => None end
      | AShutdownReturn o =>
          match pc with
          | MShutdownHTTP ctx =>
              res ← Shutdown_result ctx o; Some (after_http_Shutdown ctx res s)
          | MShutdownHTTPS ctx =>
              res ← Shutdown_result ctx o; Some (after_https_Shutdown res s)
          | _ => None
          end
      end
  end.

(** Lines 93-101: both channels made, both goroutines spawned, the signals
    subscribed, main at the select. *)
Definition initial : State :=
  {| main_pc := MSelect;
     http_pc := TSpawned; https_pc := TSpawned;
     http_inShutdown := false; https_inShutdown := false;
     errChan := Chan.make 0;
     quit := Chan.make 1;
     trace := [] |}.

(** A schedule is run from [s]; a move that is not enabled is skipped. *)
Fixpoint run (s : State) (sched : list Action) : State :=
  match sched with
  | [] => s
  | a :: rest => run (default s (exec s a)) rest
  end.

Definition main (sched : list Action) : State := run initial sched.

End Program.

(** ** Notions for the statements *)

(** The events of the coordinator: what main does from the select on, and
    the sends it receives. *)
Definition coord (e : Event) : bool :=
  match e with
  | EvSend _ _ | EvSelectQuit _ | EvSelectErr _
  | EvShutdownCall _ _ | EvShutdownReturn _ _ | EvExit _ => true
  | _ => false
  end.

Definition coord_trace (s : State) : list Event := List.filter coord (trace s).

(** The context of line 103. *)
Definition ctx : Context := WithTimeout Background (5 * Second).

(** Where a run stands: main waits in the select, is inside one of the two
    [Shutdown] calls, or the process has ended in one of four ways. *)
Inductive Phase :=
| Running
| StoppingHTTP (sig : Signal)
| StoppingHTTPS (sig : Signal)
| FailedListener (srv : Server) (err : error)
| FailedStopHTTP (sig : Signal) (err : error)
| FailedStopHTTPS (sig : Signal) (err : error)
| CleanExit (sig : Signal).

Definition phase_pc (p : Phase) : MainPc :=
  match p with
  | Running => MSelect
  | StoppingHTTP _ => MShutdownHTTP ctx
  | StoppingHTTPS _ => MShutdownHTTPS ctx
  | FailedListener _ _ | FailedStopHTTP _ _ | FailedStopHTTPS _ _ => MExited 1
  | CleanExit _ => MExited 0
  end.

Definition phase_trace (p : Phase) : list Event :=
  match p with
  | Running => []
  | StoppingHTTP sig =>
      [EvSelectQuit sig; EvShutdownCall httpServer ctx]
  | StoppingHTTPS sig =>
      [EvSelectQuit sig; EvShutdownCall httpServer ctx;
       EvShutdownReturn httpServer None; EvShutdownCall httpsServer ctx]
  | FailedListener srv err =>
      [EvSend srv err; EvSelectErr err; EvExit 1]
  | FailedStopHTTP sig err =>
      [EvSelectQuit sig; EvShutdownCall httpServer ctx;
       EvShutdownReturn httpServer (Some err); EvExit 1]
  | FailedStopHTTPS sig err =>
      [EvSelectQuit sig; EvShutdownCall httpServer ctx;
       EvShutdownReturn httpServer None; EvShutdownCall httpsServer ctx;
       EvShutdownReturn httpsServer (Some err); EvExit 1]
  | CleanExit sig =>
      [EvSelectQuit sig; EvShutdownCall httpServer ctx;
       EvShutdownReturn httpServer None; EvShutdownCall httpsServer ctx;
       EvShutdownReturn httpsServer None; EvExit 0]
  end.

(** Which servers have had [Shutdown] called in each phase. *)
Definition phase_inShutdown (p : Phase) (srv : Server) : bool :=
  match p, srv with
  | (Running | FailedListener _ _), _ => false
  | (StoppingHTTP _ | FailedStopHTTP _ _), httpServer => true
  | (StoppingHTTP _ | FailedStopHTTP _ _), httpsServer => false
  | _, _ => true
  end.

Definition phase_ok (p : Phase) : Prop :=
  match p with
  | FailedListener _ err => err <> ErrServerClosed
  | _ => True
  end.

(** What holds in every state of every run: [errChan] is as made and empty;
    main's program point, the coordinator's events and the [inShutdown] flags
    are those of one phase; a goroutine at [errChan <- err] got [err] from
    its ListenAndServe, and [ErrServerClosed] only from a server that is
    shutting down; a returned ListenAndServe has its goroutine at the send,
    or past it with the value gone through. *)
Record Inv (s : State) : Prop := {
  inv_errChan : errChan s = Chan.make 0;
  inv_quit : Chan.cap (quit s) = 1%nat;
  inv_phase : exists p, main_pc s = phase_pc p
                /\ coord_trace s = phase_trace p
                /\ (forall srv, inShutdown s srv = phase_inShutdown p srv)
                /\ phase_ok p;
  inv_send : forall srv err, task s srv = TSend err ->
               In (EvServeReturn srv err) (trace s)
               /\ (err = ErrServerClosed -> inShutdown s srv = true);
  inv_return : forall srv err, In (EvServeReturn srv err) (trace s) ->
                 (err = ErrServerClosed -> inShutdown s srv = true)
                 /\ (task s srv = TSend err
                     \/ (task s srv = TDone /\ In (EvSend srv err) (trace s)));
}.

(** The stop calls made on [srv]. *)
Definition is_stop (srv : Server) (e : Event) : bool :=
  match e with
  | EvShutdownCall srv' _ => bool_decide (srv' = srv)
  | _ => false
  end.

Definition stops (srv : Server) (t : list Event) : nat :=
  length (List.filter (is_stop srv) t).

(** *** The TLS files *)

(** The spec's words for where the two files are: the fixed names joined
    inside the configured directory. *)
Definition spec_cert_path (certDir : string) : string :=
  filepath.Join [certDir; "cert.pem"].
Definition spec_key_path (certDir : string) : string :=
  filepath.Join [certDir; "key.pem"].

(** What [startHTTPSServer] hands to [os.Stat], lines 118 and 123. *)
Definition cert_path (certDir : string) : string :=
  filepath.Join [certDir +:+ "cert.pem"].
Definition key_path (certDir : string) : string :=
  filepath.Join [certDir +:+ "key.pem"].

(** What the secure listener would show in a trace. *)
Definition tls_event (e : Event) : bool :=
  match e with
  | EvListenAndServe httpsServer _ | EvServeReturn httpsServer _
  | EvSend httpsServer _ => true
  | _ => false
  end.

(** In a run without the files, the goroutine of line 95 has not run yet or
    has returned after the notice, and the trace shows nothing of the secure
    listener. *)
Record Degraded (conf : Config) (s : State) : Prop := {
  deg_pc : https_pc s = TSpawned
           \/ (https_pc s = TDone
               /\ In (EvLog (no_material_notice (CertDir conf))) (trace s));
  deg_trace : forall e, In e (trace s) -> tls_event e = false;
}.

(** *** Concrete runs *)

Definition conf_no_slash : Config :=
  {| HTTPPort := "8080"; HTTPSPort := "8443"; CertDir := "/certs" |}.

Definition fs_in_dir : gset string := {[ "/certs/cert.pem"; "/certs/key.pem" ]}.
Definition fs_beside_dir : gset string := {[ "/certscert.pem"; "/certskey.pem" ]}.

Definition conf_slash : Config :=
  {| HTTPPort := "8080"; HTTPSPort := "8443"; CertDir := "/certs/" |}.

Definition accept_error : string :=
  "accept tcp [::]:8080: accept4: too many open files".
Definition bind_error : string :=
  "listen tcp :8080: bind: address already in use".

(** Both listeners serve, then the accept loop of the plaintext one fails. *)
Definition sched_listener_fails : list Action :=
  [AGo httpsServer Listening; AGo httpServer Listening;
   AServeReturn httpServer accept_error; ASend httpServer].

(** The plaintext listener cannot bind. *)
Definition sched_bind_fails : list Action :=
  [AGo httpServer (ListenFails bind_error); ASend httpServer].

(** A signal while both listeners serve; both stops succeed. *)
Definition sched_quit_clean : list Action :=
  [AGo httpsServer Listening; AGo httpServer Listening;
   ASignal SIGTERM; ASelectQuit; AServeReturn httpServer "";
   AShutdownReturn Drained; AServeReturn httpsServer "";
   AShutdownReturn Drained].

(** A signal while both listeners serve; the first stop runs out of time. *)
Definition sched_quit_timeout : list Action :=
  [AGo httpsServer Listening; AGo httpServer Listening;
   ASignal SIGINT; ASelectQuit; AShutdownReturn DeadlineExpired].

(** A signal; the plaintext listener ends with [ErrServerClosed] while its
    stop is still pending. *)
Definition sched_quit_pending : list Action :=
  [AGo httpsServer Listening; AGo httpServer Listening;
   ASignal SIGTERM; ASelectQuit; AServeReturn httpServer ""].

(** ** More notions: signals, listener starts, sends *)

(** The signals the OS has delivered, oldest first. *)
Definition signals (t : list Event) : list Signal :=
  omap (fun e => match e with EvSignal sig => Some sig | _ => None end) t.

(** The times ListenAndServe / ListenAndServeTLS was entered on [srv]. *)
Definition is_listen (srv : Server) (e : Event) : bool :=
  match e with
  | EvListenAndServe srv' _ => bool_decide (srv' = srv)
  | _ => false
  end.

Definition listens (srv : Server) (t : list Event) : nat :=
  length (List.filter (is_listen srv) t).

(** The values that went through [errChan]. *)
Definition is_send (e : Event) : bool :=
  match e with EvSend _ _ => true | _ => false end.

Definition sends (t : list Event) : nat := length (List.filter is_send t).

(** What every run keeps about [quit]: it has room for one signal and holds
    the first one delivered until main takes it in the select. *)
Record SigInv (s : State) : Prop := {
  sig_cap : Chan.cap (quit s) = 1%nat;
  sig_pending : main_pc s = MSelect ->
                Chan.buf (quit s) = take 1 (signals (trace s));
  sig_untaken : main_pc s = MSelect ->
                forall sig, ~ In (EvSelectQuit sig) (trace s);
  sig_taken : forall sig, In (EvSelectQuit sig) (trace s) ->
              exists pre post, trace s = pre ++ EvSelectQuit sig :: post
                /\ head (signals pre) = Some sig;
  sig_len : (length (Chan.buf (quit s)) <= 1)%nat;
}.

(** What every run keeps about the goroutines: a goroutine that has not run
    has not entered ListenAndServe, none enters it twice, what was sent had
    been returned, and what was returned or is being served came from a
    ListenAndServe that was entered. *)
Record TaskInv (s : State) : Prop := {
  task_spawned : forall srv, task s srv = TSpawned -> listens srv (trace s) = 0%nat;
  task_listens : forall srv, (listens srv (trace s) <= 1)%nat;
  task_sent : forall srv err, In (EvSend srv err) (trace s) ->
              In (EvServeReturn srv err) (trace s);
  task_returned : forall srv err, In (EvServeReturn srv err) (trace s) ->
                  exists tls, In (EvListenAndServe srv tls) (trace s);
  task_serving : forall srv, task s srv = TServing ->
                 exists tls, In (EvListenAndServe srv tls) (trace s);
}.

(** The status after a signal and the return of the stops, from the select. *)
Definition status_after_stops (o1 o2 : ShutdownOutcome) : Z :=
  match o1, o2 with
  | Drained, Drained => 0
  | _, _ => 1
  end.

(** ** The set-up of main, lines 29-82 *)

Module Setup.

(** The fields of [conf] that main reads. *)
Record Settings := {
  DBAddress : string;
  S3Bucket : string;
  Origin : string;
  TokenServiceAddress : string;
  BrokerAddress : string;
  listeners : Config;            (* HTTPPort, HTTPSPort, CertDir *)
}.

(** The fields of the broker configuration that main sets, lines 48-50. *)
Record BrokerConfig := {
  ClientID : string;
  Version : string;
  ProducerReturnSuccesses : bool;
}.

(** The calls main makes into the other packages. *)
Inductive Call :=
| LoadConfigFromEnvironment
| orm_Setup (address : string)
| NewS3Storage (bucket origin : string)
| NewGRPCTokenClient (address : string)
| sarama_NewClient (addrs : list string) (conf : BrokerConfig)
| NewKafkaEventEmiter
| RegisterTypes (types : list string)
| NewKafkaEventListener (topics : list string)
| routes_Setup (maxBodyBytes : Z) (origin : string)
| go_RunListener.

(** What the other packages answer: the configuration, or none when
    [LoadConfigFromEnvironment] returns an error; and for every call the
    message of the error it returns, [None] for nil. *)
Record World := {
  config : option Settings;
  fails : Call -> option string;
}.

(** The calls made so far, and either the message of [log.Fatal] or a value. *)
Definition Result (A : Type) : Type := list Call * (string + A).

Definition ret {A} (x : A) : Result A := ([], inr x).

Definition bind {A B} (m : Result A) (f : A -> Result B) : Result B :=
  match m with
  | (calls, inl msg) => (calls, inl msg)
  | (calls, inr x) => let '(calls', r) := f x in (calls ++ calls', r)
  end.

Notation "x <- m ;; f" := (bind m (fun x => f))
  (at level 100, m at next level, right associativity).

Section Main.

Variable w : World.

(** A call whose error ends the process through [log.Fatal]; [format] is
    what is printed of the error. *)
Definition must (c : Call) (format : string -> string) : Result unit :=
  ([c], match fails w c with
        | Some err => inl (format err)
        | None => inr tt
        end).

(** A call that returns no error. *)
Definition call (c : Call) : Result unit := ([c], inr tt).

(** Lines 29-32. *)
Definition load : Result Settings :=
  ([LoadConfigFromEnvironment],
   match config w with
   | None => inl "Couldn't read config"
   | Some conf => inr conf
   end).

(** Lines 47-50: [sarama.NewConfig()] with three fields set. *)
Definition brokerConf : BrokerConfig :=
  {| ClientID := "groupsService";
     Version := "V2_3_0_0";
     ProducerReturnSuccesses := true |}.

(** Lines 29-82 of main. *)
Definition setup : Result Settings :=
  conf <- load ;;
  _ <- must (orm_Setup (DBAddress conf)) id ;;
  _ <- must (NewS3Storage (S3Bucket conf) (Origin conf))
         (fun err => "Error connecting to AWS S3: " +:+ err) ;;
  _ <- must (NewGRPCTokenClient (TokenServiceAddress conf))
         (fun err => "Couldn't connect to grpc auth server: " +:+ err) ;;
  _ <- must (sarama_NewClient [BrokerAddress conf] brokerConf) id ;;
  _ <- must NewKafkaEventEmiter id ;;
  _ <- must (RegisterTypes ["UserRegisteredEvent"; "UserPictureModifiedEvent"]) id ;;
  _ <- must (NewKafkaEventListener ["users"]) id ;;
  _ <- call (routes_Setup 4194304 (Origin conf)) ;;
  _ <- call go_RunListener ;;
  ret conf.

End Main.

(** The calls that may end the process, in the order of the source. *)
Definition script (conf : Settings) : list Call :=
  [orm_Setup (DBAddress conf);
   NewS3Storage (S3Bucket conf) (Origin conf);
   NewGRPCTokenClient (TokenServiceAddress conf);
   sarama_NewClient [BrokerAddress conf] brokerConf;
   NewKafkaEventEmiter;
   RegisterTypes ["UserRegisteredEvent"; "UserPictureModifiedEvent"];
   NewKafkaEventListener ["users"]].

(** What [log.Fatal] prints when [c] returns the error [err]. *)
Definition fatal_message (c : Call) (err : string) : string :=
  match c with
  | NewS3Storage _ _ => "Error connecting to AWS S3: " +:+ err
  | NewGRPCTokenClient _ => "Couldn't connect to grpc auth server: " +:+ err
  | _ => err
  end.

(** The whole of main: the set-up, then the listeners under a schedule. *)
Inductive Outcome :=
| SetupFatal (calls : list Call) (msg : string)
| Started (calls : list Call) (s : State).

Definition program (w : World) (fs : gset string) (sched : list Action) : Outcome :=
  match setup w with
  | (calls, inl msg) => SetupFatal calls msg
  | (calls, inr conf) => Started calls (main (listeners conf) fs sched)
  end.

(** The status the process has ended with, if it has. *)
Definition exit_code (o : Outcome) : option Z :=
  match o with
  | SetupFatal _ _ => Some 1%Z
  | Started _ s => match main_pc s with MExited code => Some code | _ => None end
  end.

End Setup.

Definition world_ok : Setup.World :=
  {| Setup.config := Some {| Setup.DBAddress := "db:5432"; Setup.S3Bucket := "pictures";
                             Setup.Origin := "http://localhost:3000";
                             Setup.TokenServiceAddress := "tokens:9000";
                             Setup.BrokerAddress := "kafka:9092";
                             Setup.listeners := conf_slash |};
     Setup.fails := fun _ => None |}.

(** The storage cannot be reached. *)
Definition world_without_storage : Setup.World :=
  {| Setup.config := Setup.config world_ok;
     Setup.fails := fun c => match c with
                             | Setup.NewS3Storage _ _ => Some "NoCredentialProviders"
                             | _ => None
                             end |}.

(** The secure listener finds no files; then a signal, and a first stop that
    succeeds. *)
Definition sched_plain_only : list Action :=
  [AGo httpsServer Listening; AGo httpServer Listening;
   ASignal SIGTERM; ASelectQuit; AShutdownReturn Drained].




(** * Proofs *)

(** ** The path functions *)

Example Clean_examples :
  filepath.Clean "/certs//cert.pem" = "/certs/cert.pem" /\
  filepath.Clean "a/./b/../c/" = "a/c" /\
  filepath.Clean "../../x" = "../../x" /\
  filepath.Clean "/../x/.." = "/" /\
  filepath.Clean "x/.." = "." /\
  filepath.Join ["/certs"; "cert.pem"] = "/certs/cert.pem" /\
  filepath.Join [""; "cert.pem"] = "cert.pem" /\
  filepath.Join ["/certs" +:+ "cert.pem"] = "/certscert.pem".
Proof. repeat split; reflexivity. Qed.

(** The two agree on a directory that is written with its closing
    separator, and differ without it. *)
Lemma elements_nonempty a : filepath.elements a <> [].
Proof.
  destruct a as [|c a]; simpl; [done|].
  destruct (filepath.IsPathSeparator c); [done|].
  by destruct (filepath.elements a).
Qed.

Lemma elements_sep a b :
  filepath.elements (a +:+ "/" +:+ b) = filepath.elements a ++ filepath.elements b.
Proof.
  change ("/" +:+ b) with (String "/" b).
  induction a as [|c a IH]; simpl; [done|].
  rewrite IH. destruct (filepath.IsPathSeparator c); [done|].
  pose proof (elements_nonempty a). by destruct (filepath.elements a).
Qed.

Lemma append_assoc (a b c : string) : (a +:+ b) +:+ c = a +:+ (b +:+ c).
Proof.
  induction a as [|x a IH]; [done|].
  change (String x ((a +:+ b) +:+ c) = String x (a +:+ (b +:+ c))).
  by rewrite IH.
Qed.

Lemma is_rooted_sep a b c :
  filepath.is_rooted (a +:+ "/" +:+ b) = filepath.is_rooted (a +:+ "/" +:+ c).
Proof. by destruct a. Qed.

Lemma append_sep_nonempty a b : bool_decide (a +:+ "/" +:+ b = "") = false.
Proof. by destruct a. Qed.

Lemma fold_clean_empty rooted l out :
  fold_left (filepath.clean_element rooted) ("" :: l) out
  = fold_left (filepath.clean_element rooted) l out.
Proof. done. Qed.

Lemma Join_after_separator dir name :
  filepath.Join [(dir +:+ "/") +:+ name] = filepath.Join [dir +:+ "/"; name].
Proof.
  unfold filepath.Join, strings.Join. rewrite !append_assoc.
  rewrite !append_sep_nonempty. unfold filepath.Clean.
  rewrite !append_sep_nonempty.
  rewrite (is_rooted_sep dir name ("/" +:+ name)).
  rewrite !elements_sep, !fold_left_app.
  change (filepath.elements ("/" +:+ name)) with ("" :: filepath.elements name).
  rewrite !fold_clean_empty.
  by replace (bool_decide (dir +:+ "/" = "")) with false by by destruct dir.
Qed.

(** ** Invariants of every run *)

Lemma Inv_initial : Inv initial.
Proof.
  split; simpl; try done.
  - exists Running. repeat split; try done. by intros [].
  - by intros [].
Qed.

Tactic Notation "phase_with" uconstr(p) :=
  refine (ex_intro _ p _); simpl; unfold coord_trace; simpl;
  rewrite ?List.filter_app; simpl;
  repeat match goal with H : List.filter coord _ = _ |- _ => rewrite H end;
  simpl; rewrite ?app_nil_r;
  split; [ reflexivity | split; [ reflexivity | split; [ by intros [] | ] ] ];
  simpl; solve [ done | naive_solver ].

Ltac find_phase :=
  first [ phase_with Running
        | phase_with (StoppingHTTP _)
        | phase_with (StoppingHTTPS _)
        | phase_with (FailedListener _ _)
        | phase_with (FailedStopHTTP _ _)
        | phase_with (FailedStopHTTPS _ _)
        | phase_with (CleanExit _) ].

Ltac task_facts H1 H1' H2 H2' :=
  intros [] ?; [ clear H2 H2' | clear H1 H1' ];
  simpl; rewrite ?in_app_iff; simpl; naive_solver.

(** Every move keeps the invariant: one case for each enabled move in each
    of the three phases in which the process still runs. *)
Lemma Inv_exec conf fs s a s' : Inv s -> exec conf fs s a = Some s' -> Inv s'.
Proof.
  intros [Hc Hq [p (Hpc & Htr & Hsh & Hok)] Hsend Hret] Hex.
  destruct s as [pc hp hsp hs hss ec q tr]; unfold coord_trace in *; simpl in *.
  subst ec.
  pose proof (Hsh httpServer) as Hsh1; pose proof (Hsh httpsServer) as Hsh2.
  pose proof (Hsend httpServer) as Hsend1; pose proof (Hsend httpsServer) as Hsend2.
  pose proof (Hret httpServer) as Hret1; pose proof (Hret httpsServer) as Hret2.
  clear Hsh Hsend Hret.
  simpl in *.
  unfold exec, go, startHTTPSServer, ListenAndServe, Serve_ends, serve_returns,
    send, Notify, select_quit, select_err, after_http_Shutdown,
    after_https_Shutdown, Shutdown_call, Shutdown_result, log_Fatal,
    Chan.offer, Chan.poll in Hex.
  destruct p; simpl in *; subst pc; try discriminate;
  destruct a as [[] []|[] ?|[]|?| | |[]]; simpl in Hex;
  repeat case_match; simplify_eq/=.
  all: split; simpl;
    [ done | done | find_phase
    | task_facts Hsend1 Hret1 Hsend2 Hret2
    | task_facts Hsend1 Hret1 Hsend2 Hret2 ].
Qed.

Lemma Inv_run conf fs sched : forall s, Inv s -> Inv (run conf fs s sched).
Proof.
  induction sched as [|a sched IH]; intros s Hs; simpl; [done|].
  apply IH. destruct (exec conf fs s a) as [s'|] eqn:Hex; simpl; [|done].
  by eapply Inv_exec.
Qed.

Lemma Inv_main conf fs sched : Inv (main conf fs sched).
Proof. apply Inv_run, Inv_initial. Qed.


(** ** What the coordinator does in every run *)

Lemma In_coord_trace s e : coord e = true -> In e (trace s) -> In e (coord_trace s).
Proof. intros He Hin. apply List.filter_In. by split. Qed.

Lemma coord_trace_In s e : In e (coord_trace s) -> In e (trace s).
Proof. intros Hin. by apply List.filter_In in Hin as [? _]. Qed.

(** An event of the coordinator in the trace cuts the coordinator's own
    trace at the same place. *)
Lemma coord_trace_split s pre e post :
  trace s = pre ++ e :: post -> coord e = true ->
  coord_trace s = List.filter coord pre ++ e :: List.filter coord post.
Proof.
  intros Htr He. unfold coord_trace. rewrite Htr, List.filter_app. simpl.
  by rewrite He.
Qed.

Lemma filter_coord_In pre e : In e (List.filter coord pre) -> In e pre.
Proof. intros Hin. by apply List.filter_In in Hin as [? _]. Qed.

(** Membership of a closed list, case by case. *)
Ltac in_cases H :=
  simpl in H;
  repeat match type of H with
         | _ \/ _ => destruct H as [H|H]
         | False => destruct H
         end;
  simplify_eq.

Lemma stops_coord srv t : stops srv (List.filter coord t) = stops srv t.
Proof.
  unfold stops. induction t as [|e t IH]; simpl; [done|].
  destruct e; simpl; try done; case_bool_decide; simpl; congruence.
Qed.


(** In a run that has reached phase [p], the coordinator's events in the
    trace are those of [phase_trace p]. *)
Lemma trace_phase conf fs sched :
  exists p, main_pc (main conf fs sched) = phase_pc p
    /\ coord_trace (main conf fs sched) = phase_trace p
    /\ phase_ok p.
Proof.
  destruct (inv_phase _ (Inv_main conf fs sched)) as (p & Hpc & Htr & _ & Hok).
  by exists p.
Qed.

(** The goroutine of [srv] stands at [errChan <- err]: the send goes through
    exactly when main waits in the select, and then ends the process. *)
Lemma send_unbuffered conf fs s srv err :
  errChan s = Chan.make 0 -> task s srv = TSend err ->
  match main_pc s with
  | MSelect =>
      exists s', exec conf fs s (ASend srv) = Some s'
        /\ main_pc s' = MExited 1
        /\ trace s' = trace s ++ [EvSend srv err; EvSelectErr err; EvExit 1]
  | _ => exec conf fs s (ASend srv) = None
  end.
Proof.
  intros Hc Ht. unfold exec, send. rewrite Ht, Hc.
  destruct (main_pc s) eqn:Hpc; simpl; try done.
  eexists; split; [done|]. split; [done|].
  destruct srv; simpl; by rewrite <- app_assoc.
Qed.

(** While main is inside a [Shutdown] call, the moves of the goroutines and
    of the OS leave it there; only the return of the call moves it on. *)
Lemma Shutdown_pending_step conf fs s a s' :
  main_pc s <> MSelect ->
  exec conf fs s a = Some s' -> main_pc s' <> main_pc s ->
  exists o, a = AShutdownReturn o.
Proof.
  intros Hsel Hex Hpc. destruct a as [srv o|srv msg|srv|sig| | |o]; [..|by eexists];
    exfalso; apply Hpc; clear Hpc; unfold exec in Hex;
    destruct (main_pc s) eqn:Hm; try done.
  all: unfold go, startHTTPSServer, ListenAndServe, Serve_ends, serve_returns,
         send, Notify, Chan.offer in Hex;
       destruct s as [pc hp hsp hs hss ec q tr]; destruct srv || idtac;
       simpl in *; repeat case_match; by simplify_eq/=.
Qed.

Section Claims.

Variable conf : Config.
Variable fs : gset string.

(** C1 (as amended): when the select receives a listener's error from
    [errChan], the process ends with status 1 at once; [Shutdown] is called
    on no server in that run. *)
Theorem listener_failure_exits_without_stop sched err :
  In (EvSelectErr err) (trace (main conf fs sched)) ->
  main_pc (main conf fs sched) = MExited 1
  /\ forall srv c, ~ In (EvShutdownCall srv c) (trace (main conf fs sched)).
Proof.
  intros Hin. destruct (trace_phase conf fs sched) as (p & Hpc & Htr & _).
  apply In_coord_trace in Hin; [|done]. rewrite Htr in Hin.
  destruct p; in_cases Hin.
  split; [done|]. intros srv' c Hc.
  apply In_coord_trace in Hc; [|done]. rewrite Htr in Hc. in_cases Hc.
Qed.

(** C2 (as amended): the error of a failed listener start is handed to
    [errChan <- err] like any other result of ListenAndServe.  Either the
    goroutine still stands at the send — which, while main waits in the
    select, goes through and ends the process with status 1 — or the error
    has gone through the channel, main has received it and the process has
    ended with status 1. *)
Theorem startup_error_goes_through_errChan sched srv msg :
  let s := main conf fs sched in
  In (EvServeReturn srv (ErrListen msg)) (trace s) ->
  (task s srv = TSend (ErrListen msg)
   /\ (main_pc s = MSelect ->
       exists s', exec conf fs s (ASend srv) = Some s'
         /\ main_pc s' = MExited 1
         /\ trace s' = trace s ++ [EvSend srv (ErrListen msg);
                                   EvSelectErr (ErrListen msg); EvExit 1]))
  \/ (task s srv = TDone
      /\ In (EvSend srv (ErrListen msg)) (trace s)
      /\ In (EvSelectErr (ErrListen msg)) (trace s)
      /\ main_pc s = MExited 1).
Proof.
  intros s Hin. pose proof (Inv_main conf fs sched) as HI. fold s in HI.
  destruct (inv_return _ HI _ _ Hin) as [_ [Ht|[Ht Hs]]].
  - left. split; [done|]. intros Hpc.
    pose proof (send_unbuffered conf fs s srv _ (inv_errChan _ HI) Ht) as H.
    by rewrite Hpc in H.
  - right. destruct (trace_phase conf fs sched) as (p & Hpc & Htr & _). fold s in Hpc, Htr.
    pose proof Hs as Hs'. apply In_coord_trace in Hs'; [|done]. rewrite Htr in Hs'.
    destruct p; in_cases Hs'.
    repeat split; try done.
    apply coord_trace_In. rewrite Htr. simpl. auto.
Qed.

(** C3: a listener whose ListenAndServe returned [ErrServerClosed] had
    [Shutdown] called on its server, and its goroutine's send on [errChan]
    never goes through; every value that does go through [errChan] is
    another error, sent in a run in which no [Shutdown] was called. *)
Theorem cooperative_stop_sends_nothing sched :
  let s := main conf fs sched in
  (forall srv, In (EvServeReturn srv ErrServerClosed) (trace s) ->
     In (EvShutdownCall srv ctx) (trace s)
     /\ forall err, ~ In (EvSend srv err) (trace s))
  /\ (forall srv err, In (EvSend srv err) (trace s) ->
        err <> ErrServerClosed
        /\ forall srv' c, ~ In (EvShutdownCall srv' c) (trace s)).
Proof.
  intros s. pose proof (Inv_main conf fs sched) as HI. fold s in HI.
  destruct (inv_phase _ HI) as (p & Hpc & Htr & Hsh & Hok).
  split.
  - intros srv Hin. destruct (inv_return _ HI _ _ Hin) as [Hshut _].
    specialize (Hshut eq_refl). rewrite Hsh in Hshut.
    split.
    + apply coord_trace_In. rewrite Htr.
      destruct p, srv; simpl in *; try discriminate; auto 10.
    + intros err Hs. apply In_coord_trace in Hs; [|done]. rewrite Htr in Hs.
      destruct p; in_cases Hs.
  - intros srv err Hs. apply In_coord_trace in Hs; [|done]. rewrite Htr in Hs.
    destruct p; in_cases Hs. split; [done|].
    intros srv' c Hc. apply In_coord_trace in Hc; [|done]. rewrite Htr in Hc.
    in_cases Hc.
Qed.

(** C4 (as amended): [errChan] is unbuffered.  In every run it has
    capacity 0 and holds nothing, and a goroutine that stands at
    [errChan <- err] gets its value through exactly when main waits in the
    select; otherwise it stays blocked. *)
Theorem errChan_is_unbuffered sched :
  let s := main conf fs sched in
  Chan.cap (errChan s) = 0%nat /\ Chan.buf (errChan s) = []
  /\ forall srv err, task s srv = TSend err ->
       (main_pc s = MSelect ->
        exists s', exec conf fs s (ASend srv) = Some s'
          /\ In (EvSend srv err) (trace s'))
       /\ (main_pc s <> MSelect -> exec conf fs s (ASend srv) = None).
Proof.
  intros s. pose proof (Inv_main conf fs sched) as HI. fold s in HI.
  pose proof (inv_errChan _ HI) as Hc. rewrite Hc. do 2 (split; [done|]).
  intros srv err Ht.
  pose proof (send_unbuffered conf fs s srv err Hc Ht) as H.
  destruct (main_pc s); split; try done.
  intros _. destruct H as (s' & Hex & _ & Htr). exists s'. split; [done|].
  rewrite Htr. apply in_app_iff. right. simpl. auto.
Qed.

(** C5 (as amended): the two stop calls are made one after the other under
    one shared context with a timeout of five seconds.  Every [Shutdown]
    call gets the context of line 103; the call on [httpsServer] is made
    only after the call on [httpServer] has been made with the same context
    and has returned no error; and while a [Shutdown] call is pending main
    moves on by the return of that call alone. *)
Theorem stops_are_sequential sched :
  let s := main conf fs sched in
  (forall srv c, In (EvShutdownCall srv c) (trace s) ->
     c = WithTimeout Background (5 * Second))
  /\ (forall pre c post, trace s = pre ++ EvShutdownCall httpsServer c :: post ->
        In (EvShutdownCall httpServer c) pre
        /\ In (EvShutdownReturn httpServer None) pre)
  /\ (forall a s', main_pc s <> MSelect ->
        exec conf fs s a = Some s' -> main_pc s' <> main_pc s ->
        exists o, a = AShutdownReturn o).
Proof.
  intros s. destruct (trace_phase conf fs sched) as (p & Hpc & Htr & _).
  fold s in Hpc, Htr. split; [|split].
  - intros srv c Hc. apply In_coord_trace in Hc; [|done]. rewrite Htr in Hc.
    destruct p; by in_cases Hc.
  - intros pre c post Hsplit.
    apply coord_trace_split in Hsplit; [|done]. rewrite Htr in Hsplit.
    split; apply filter_coord_In; revert Hsplit;
      generalize (List.filter coord pre) as l; intros l Hsplit;
      destruct p; simpl in Hsplit;
      repeat (destruct l as [|? l]; simplify_eq/=); auto 10.
  - intros a s'. apply Shutdown_pending_step.
Qed.

(** C9: in every run, under every interleaving of signals, listener
    failures and returns, [Shutdown] is called on each server at most
    once. *)
Theorem at_most_one_stop sched srv :
  (stops srv (trace (main conf fs sched)) <= 1)%nat.
Proof.
  destruct (trace_phase conf fs sched) as (p & _ & Htr & _).
  rewrite <- stops_coord. fold (coord_trace (main conf fs sched)). rewrite Htr.
  destruct p, srv; vm_compute; lia.
Qed.

(** C10: the stop calls are ordered.  After [case <-quit], [Shutdown] is
    called on [httpServer], and no [Shutdown] call comes before that one;
    when it returns an error the process ends with status 1 and
    [Shutdown] is never called on [httpsServer]. *)
Theorem http_stop_first_and_its_failure_skips_https sched :
  let s := main conf fs sched in
  (forall sig, In (EvSelectQuit sig) (trace s) ->
     In (EvShutdownCall httpServer ctx) (trace s))
  /\ (forall pre srv c post, trace s = pre ++ EvShutdownCall srv c :: post ->
        (forall srv' c', ~ In (EvShutdownCall srv' c') pre) ->
        srv = httpServer)
  /\ (forall err, In (EvShutdownReturn httpServer (Some err)) (trace s) ->
        main_pc s = MExited 1
        /\ forall c, ~ In (EvShutdownCall httpsServer c) (trace s)).
Proof.
  intros s. destruct (trace_phase conf fs sched) as (p & Hpc & Htr & _).
  fold s in Hpc, Htr.
  assert (Hin : forall e, coord e = true -> In e (trace s) <-> In e (phase_trace p)).
  { intros e He. rewrite <- Htr. split; [by apply In_coord_trace | apply coord_trace_In]. }
  split; [|split].
  - intros sig H. apply Hin in H; [|done]. apply Hin; [done|].
    destruct p; in_cases H; simpl; auto.
  - intros pre srv c post Hsplit Hfirst.
    apply coord_trace_split in Hsplit; [|done]. rewrite Htr in Hsplit.
    assert (Hl : forall srv' c', ~ In (EvShutdownCall srv' c') (List.filter coord pre)).
    { intros srv' c' H. by apply filter_coord_In, Hfirst in H. }
    revert Hsplit Hl. generalize (List.filter coord pre) as l. intros l Hsplit Hl.
    destruct p; simpl in Hsplit;
      repeat (destruct l as [|? l]; simplify_eq/=); try done;
      exfalso; eapply Hl; simpl; eauto 10.
  - intros err H. apply Hin in H; [|done]. split.
    + destruct p; in_cases H; done.
    + intros c Hc. apply Hin in Hc; [|done]. destruct p; in_cases H; in_cases Hc.
Qed.

End Claims.

(** ** The probe for the TLS files *)

(** C6 (the code at the failing input): with [CertDir = "/certs"] and both
    files present in that directory, [startHTTPSServer] looks for
    ["/certscert.pem"], finds nothing, logs the notice and returns; the
    secure listener is not started. *)
Theorem material_in_directory_is_not_found :
  let s := main conf_no_slash fs_in_dir [AGo httpsServer Listening] in
  ((spec_cert_path "/certs" ∈ fs_in_dir) /\ (spec_key_path "/certs" ∈ fs_in_dir))
  /\ cert_path "/certs" = "/certscert.pem"
  /\ task s httpsServer = TDone
  /\ trace s = [EvLog "Couldn't start https server. No cert.pem or key.pem in /certs"].
Proof.
  split; [|by vm_compute].
  change (spec_cert_path "/certs") with "/certs/cert.pem".
  change (spec_key_path "/certs") with "/certs/key.pem".
  unfold fs_in_dir. set_solver.
Qed.

(** C7 (the code at the failing input): with [CertDir = "/certs"], a
    directory that holds neither file, and two files named ["certscert.pem"]
    and ["certskey.pem"] beside it, [startHTTPSServer] finds what it looks
    for and starts the secure listener with these two files. *)
Theorem material_beside_directory_starts_listener :
  let s := main conf_no_slash fs_beside_dir [AGo httpsServer Listening] in
  ((spec_cert_path "/certs" ∉ fs_beside_dir) /\ (spec_key_path "/certs" ∉ fs_beside_dir))
  /\ task s httpsServer = TServing
  /\ trace s = [EvLog "HTTPS Server starting on: :8443";
                EvListenAndServe httpsServer (Some ("/certscert.pem", "/certskey.pem"))].
Proof.
  split; [|by vm_compute].
  change (spec_cert_path "/certs") with "/certs/cert.pem".
  change (spec_key_path "/certs") with "/certs/key.pem".
  unfold fs_beside_dir. set_solver.
Qed.

(** *** Without the files [startHTTPSServer] looks for *)

Section NoMaterial.

Variable conf : Config.
Variable fs : gset string.

(** [os.Stat] fails on one of the two paths of lines 118 and 123. *)
Hypothesis absent :
  os.Stat fs (cert_path (CertDir conf)) <> None
  \/ os.Stat fs (key_path (CertDir conf)) <> None.

(** The function logs the notice and returns. *)
Lemma startHTTPSServer_absent o s :
  startHTTPSServer conf fs (CertDir conf) o s
  = set_task httpsServer TDone
      (emit [EvLog (no_material_notice (CertDir conf))] s).
Proof.
  unfold startHTTPSServer. fold (cert_path (CertDir conf)) (key_path (CertDir conf)).
  destruct (os.Stat fs (cert_path _)); [done|].
  destruct (os.Stat fs (key_path _)); [done|].
  by destruct absent.
Qed.

(** Its goroutine leaves main and the other goroutine as they are. *)
Lemma startHTTPSServer_absent_step s o s' :
  exec conf fs s (AGo httpsServer o) = Some s' ->
  main_pc s' = main_pc s /\ http_pc s' = http_pc s /\ https_pc s' = TDone
  /\ errChan s' = errChan s
  /\ trace s' = trace s ++ [EvLog (no_material_notice (CertDir conf))].
Proof.
  unfold exec. simpl. rewrite startHTTPSServer_absent.
  destruct (main_pc s) eqn:?, (https_pc s); intros; by simplify_eq/=.
Qed.

Lemma Degraded_exec s a s' :
  Degraded conf s -> exec conf fs s a = Some s' -> Degraded conf s'.
Proof.
  intros [Hpc Htr] Hex. unfold exec in Hex.
  destruct s as [pc hp hsp hs hss ec q tr]; simpl in *.
  destruct pc; try discriminate;
    destruct a as [[] []|[] ?|[]|?| | |[]]; unfold go in Hex;
    rewrite ?startHTTPSServer_absent in Hex;
    unfold ListenAndServe, Serve_ends, serve_returns,
      send, Notify, select_quit, select_err, after_http_Shutdown,
      after_https_Shutdown, Shutdown_call, Shutdown_result, log_Fatal,
      Chan.offer, Chan.poll in Hex;
    simpl in Hex; repeat case_match; simplify_eq/=;
    try (destruct Hpc as [?|[? ?]]; discriminate).
  all: split; simpl;
    [ rewrite ?in_app_iff; simpl; naive_solver
    | intros ?; rewrite ?in_app_iff; simpl; naive_solver ].
Qed.

(** In no run does the secure listener start, return or send; the
    goroutine of line 95 has not run yet or has returned after the notice. *)
Lemma Degraded_main sched : Degraded conf (main conf fs sched).
Proof.
  unfold main. assert (Degraded conf initial) as H by (split; simpl; [auto|done]).
  revert H. generalize initial as s.
  induction sched as [|a sched IH]; intros s Hs; simpl; [done|].
  apply IH. destruct (exec conf fs s a) as [s'|] eqn:Hex; simpl; [|done].
  by eapply Degraded_exec.
Qed.

(** X7: when [os.Stat] fails on one of the two paths [startHTTPSServer]
    probes, no run enters ListenAndServeTLS, and the goroutine of line 95
    sends nothing on [errChan]. *)
Lemma absent_never_starts sched :
  (forall tls, ~ In (EvListenAndServe httpsServer tls) (trace (main conf fs sched)))
  /\ (forall err, ~ In (EvSend httpsServer err) (trace (main conf fs sched))).
Proof.
  destruct (Degraded_main sched) as [_ H].
  split; intros x Hin; by apply H in Hin.
Qed.

End NoMaterial.

(** ** Runs *)

Example deadline_of_ctx : deadline ctx = Some 5000000000%Z.
Proof. reflexivity. Qed.

Example stops_in_clean_run :
  stops httpServer (trace (main conf_slash fs_in_dir sched_quit_clean)) = 1%nat
  /\ stops httpsServer (trace (main conf_slash fs_in_dir sched_quit_clean)) = 1%nat.
Proof. by vm_compute. Qed.

(** C1, the claim as stated fails: the plaintext listener fails while the
    secure one serves, main receives the error and the process ends with
    status 1, and no stop call has been made on the secure server. *)
Lemma listener_failure_without_stop_call :
  let s := main conf_slash fs_in_dir sched_listener_fails in
  In (EvSelectErr (ErrAccept accept_error)) (trace s)
  /\ task s httpsServer = TServing
  /\ main_pc s = MExited 1
  /\ ~ (exists c, In (EvShutdownCall httpsServer c) (trace s)).
Proof.
  vm_compute. repeat split; auto 10.
  intros [c H]. in_cases H.
Qed.

Lemma listener_failure_exits_without_stop_witness :
  main_pc (main conf_slash fs_in_dir sched_listener_fails) = MExited 1
  /\ forall srv c,
       ~ In (EvShutdownCall srv c) (trace (main conf_slash fs_in_dir sched_listener_fails)).
Proof.
  apply (listener_failure_exits_without_stop conf_slash fs_in_dir
           sched_listener_fails (ErrAccept accept_error)).
  vm_compute. auto 10.
Defined.

(** C2, the claim as stated fails: after the failed start main still waits
    in the select, and the error then goes through [errChan]. *)
Lemma startup_error_is_sent_on_errChan :
  let s1 := main conf_slash fs_in_dir [AGo httpServer (ListenFails bind_error)] in
  let s2 := main conf_slash fs_in_dir sched_bind_fails in
  main_pc s1 = MSelect
  /\ task s1 httpServer = TSend (ErrListen bind_error)
  /\ trace s2 = [EvListenAndServe httpServer None;
                 EvServeReturn httpServer (ErrListen bind_error);
                 EvSend httpServer (ErrListen bind_error);
                 EvSelectErr (ErrListen bind_error);
                 EvExit 1].
Proof. by vm_compute. Qed.

Lemma startup_error_goes_through_errChan_witness :
  In (EvSend httpServer (ErrListen bind_error))
     (trace (main conf_slash fs_in_dir sched_bind_fails))
  /\ main_pc (main conf_slash fs_in_dir sched_bind_fails) = MExited 1.
Proof.
  assert (In (EvServeReturn httpServer (ErrListen bind_error))
            (trace (main conf_slash fs_in_dir sched_bind_fails))) as Hin
    by (vm_compute; auto).
  destruct (startup_error_goes_through_errChan conf_slash fs_in_dir
              sched_bind_fails httpServer bind_error Hin)
    as [[H _]|(_ & H1 & _ & H2)].
  - vm_compute in H. discriminate H.
  - by split.
Defined.

Lemma cooperative_stop_sends_nothing_witness :
  let s := main conf_slash fs_in_dir sched_quit_pending in
  In (EvServeReturn httpServer ErrServerClosed) (trace s)
  /\ task s httpServer = TSend ErrServerClosed
  /\ forall err, ~ In (EvSend httpServer err) (trace s).
Proof.
  split; [vm_compute; auto 10|]. split; [by vm_compute|].
  apply (proj1 (cooperative_stop_sends_nothing conf_slash fs_in_dir
                  sched_quit_pending) httpServer).
  vm_compute. auto 10.
Defined.

(** C4, the claim as stated fails: [errChan] is made with capacity 0, and a
    goroutine that reaches its send when main has left the select cannot
    deliver its value. *)
Lemma errChan_send_blocks_without_receiver :
  let s := main conf_slash fs_in_dir sched_quit_pending in
  ~ (1 <= Chan.cap (errChan initial))%nat
  /\ task s httpServer = TSend ErrServerClosed
  /\ main_pc s = MShutdownHTTP ctx
  /\ exec conf_slash fs_in_dir s (ASend httpServer) = None.
Proof. vm_compute. repeat split; auto. lia. Qed.

(** C5, the claim as stated fails: while [httpServer.Shutdown] is pending,
    nothing but its return without error brings the stop call on
    [httpsServer]. *)
Lemma https_stop_waits_for_http_stop :
  let s := main conf_slash fs_in_dir [ASignal SIGTERM; ASelectQuit] in
  trace s = [EvSignal SIGTERM; EvSelectQuit SIGTERM; EvShutdownCall httpServer ctx]
  /\ (forall a s', exec conf_slash fs_in_dir s a = Some s' ->
        (exists c, In (EvShutdownCall httpsServer c) (trace s')) ->
        a = AShutdownReturn Drained)
  /\ trace (main conf_slash fs_in_dir
              [ASignal SIGTERM; ASelectQuit; AShutdownReturn Drained])
     = [EvSignal SIGTERM; EvSelectQuit SIGTERM; EvShutdownCall httpServer ctx;
        EvShutdownReturn httpServer None; EvShutdownCall httpsServer ctx].
Proof.
  split; [by vm_compute|]. split; [|by vm_compute].
  intros a s' Hex [c Hc].
  destruct a as [[] []|[] ?|[]|?| | |[]]; vm_compute in Hex; simplify_eq;
    try done; vm_compute in Hc; in_cases Hc.
Qed.

Lemma stops_are_sequential_witness :
  let pre := [EvSignal SIGTERM; EvSelectQuit SIGTERM; EvShutdownCall httpServer ctx;
              EvShutdownReturn httpServer None] in
  In (EvShutdownCall httpServer ctx) pre
  /\ In (EvShutdownReturn httpServer None) pre.
Proof.
  intros pre.
  apply (proj1 (proj2 (stops_are_sequential conf_slash fs_in_dir
                         [ASignal SIGTERM; ASelectQuit; AShutdownReturn Drained]))
           pre ctx []).
  by vm_compute.
Defined.

Lemma http_stop_failure_skips_https_witness :
  let s := main conf_slash fs_in_dir sched_quit_timeout in
  In (EvShutdownReturn httpServer (Some ErrDeadlineExceeded)) (trace s)
  /\ main_pc s = MExited 1
  /\ forall c, ~ In (EvShutdownCall httpsServer c) (trace s).
Proof.
  split; [vm_compute; auto 10|].
  apply (proj2 (proj2 (http_stop_first_and_its_failure_skips_https conf_slash
                         fs_in_dir sched_quit_timeout)) ErrDeadlineExceeded).
  vm_compute. auto 10.
Defined.

(** ** The signal channel *)

Lemma signals_app t1 t2 : signals (t1 ++ t2) = signals t1 ++ signals t2.
Proof. apply omap_app. Qed.

Lemma SigInv_initial : SigInv initial.
Proof. split; simpl; try done; auto. Qed.

Ltac sig_goal q tr Hcap Hpend Hun Htk Hlen :=
  lazymatch goal with
  | |- _ = MSelect -> _ = take _ _ =>
      let Hm := fresh in
      intros Hm; try discriminate Hm;
      rewrite <- ?app_assoc, signals_app; simpl; rewrite ?app_nil_r;
      specialize (Hpend eq_refl); try exact Hpend;
      rewrite ?Hcap in *;
      destruct (signals tr), (Chan.buf q); simpl in *; simplify_eq; try done; lia
  | |- _ = MSelect -> forall _, ~ _ =>
      let Hm := fresh in
      intros Hm; try discriminate Hm;
      intros ?; rewrite ?in_app_iff; simpl; naive_solver
  | |- forall sig : Signal, @?P sig =>
      let Hin := fresh "Hin" in
      intros ? Hin; rewrite <- ?app_assoc in Hin |- *; simpl in Hin |- *;
      apply in_app_iff in Hin as [Hin|Hin];
      [ destruct (Htk _ Hin) as (pre & post & Heq & Hh); exists pre; eexists;
        (split; [ rewrite Heq, <- app_assoc; simpl; reflexivity | exact Hh ])
      | in_cases Hin;
        (exists tr; eexists; split; [ reflexivity | ];
         specialize (Hpend eq_refl); destruct (signals tr); simpl in *; congruence) ]
  | |- (_ <= _)%nat =>
      rewrite ?length_app; rewrite ?Hcap in *; simpl in *; lia
  end.

Lemma SigInv_exec conf fs s a s' : SigInv s -> exec conf fs s a = Some s' -> SigInv s'.
Proof.
  intros [Hcap Hpend Hun Htk Hlen] Hex.
  destruct s as [pc hp hsp hs hss ec q tr]; simpl in *.
  unfold exec, go, startHTTPSServer, ListenAndServe, Serve_ends, serve_returns,
    send, Notify, select_quit, select_err, after_http_Shutdown,
    after_https_Shutdown, Shutdown_call, Shutdown_result, log_Fatal,
    Chan.offer, Chan.poll in Hex.
  destruct pc; simpl in *; try discriminate;
  destruct a as [[] []|[] ?|[]|?| | |[]]; simpl in Hex;
  repeat case_match; simplify_eq/=.
  all: split; simpl; try done.
  all: sig_goal q tr Hcap Hpend Hun Htk Hlen.
Qed.

(** ** The listener goroutines *)

Lemma TaskInv_initial : TaskInv initial.
Proof. split; simpl; try done; auto; by intros []. Qed.

Ltac count_listens :=
  unfold listens in *; rewrite ?List.filter_app, ?length_app; simpl.

Ltac spawned_goal Hsp1 Hsp2 :=
  intros [] ?; simplify_eq/=; count_listens;
  try specialize (Hsp1 eq_refl); try specialize (Hsp2 eq_refl); lia.

Ltac listens_goal Hsp1 Hsp2 :=
  intros []; count_listens;
  try specialize (Hsp1 eq_refl); try specialize (Hsp2 eq_refl); lia.

(** The new events of a move are the list after [tr]. *)
Ltac old_or_new Hin :=
  rewrite <- ?app_assoc in Hin |- *; simpl in Hin |- *;
  apply in_app_iff in Hin as [Hin|Hin]; [ | in_cases Hin ].

Ltac sent_goal Hst1 Hst2 Hsend1 Hsend2 :=
  let Hin := fresh "Hin" in
  let srv := fresh "srv" in
  intros srv ? Hin; old_or_new Hin; apply in_app_iff;
  first [ left; destruct srv; [ by apply Hst1 | by apply Hst2 ]
        | left; apply (Hsend1 _ eq_refl)
        | left; apply (Hsend2 _ eq_refl)
        | right; simpl; by auto 10 ].

Ltac listened H :=
  let tls := fresh "tls" in
  destruct H as [tls H]; exists tls; apply in_app_iff; by left.

Ltac returned_goal Hrt1 Hrt2 Hsv1 Hsv2 :=
  let Hin := fresh "Hin" in
  let srv := fresh "srv" in
  intros srv ? Hin; old_or_new Hin;
  first [ destruct srv; [ apply Hrt1 in Hin | apply Hrt2 in Hin ]; listened Hin
        | specialize (Hsv1 eq_refl); listened Hsv1
        | specialize (Hsv2 eq_refl); listened Hsv2
        | eexists; apply in_app_iff; right; simpl; by eauto 10 ].

Ltac serving_goal Hsv1 Hsv2 :=
  let Ht := fresh "Ht" in
  intros [] Ht; simplify_eq/=; rewrite <- ?app_assoc; simpl;
  first [ specialize (Hsv1 eq_refl); listened Hsv1
        | specialize (Hsv2 eq_refl); listened Hsv2
        | specialize (Hsv1 Ht); listened Hsv1
        | specialize (Hsv2 Ht); listened Hsv2
        | eexists; apply in_app_iff; right; simpl; by eauto 10 ].

Lemma TaskInv_exec conf fs s a s' :
  Inv s -> TaskInv s -> exec conf fs s a = Some s' -> TaskInv s'.
Proof.
  intros [_ _ _ Hsend _] [Hsp Hls Hst Hrt Hsv] Hex.
  destruct s as [pc hp hsp hs hss ec q tr]; simpl in *.
  pose proof (Hsend httpServer) as Hsend1; pose proof (Hsend httpsServer) as Hsend2.
  pose proof (Hsp httpServer) as Hsp1; pose proof (Hsp httpsServer) as Hsp2.
  pose proof (Hls httpServer) as Hls1; pose proof (Hls httpsServer) as Hls2.
  pose proof (Hst httpServer) as Hst1; pose proof (Hst httpsServer) as Hst2.
  pose proof (Hrt httpServer) as Hrt1; pose proof (Hrt httpsServer) as Hrt2.
  pose proof (Hsv httpServer) as Hsv1; pose proof (Hsv httpsServer) as Hsv2.
  clear Hsend Hsp Hls Hst Hrt Hsv. simpl in *.
  unfold exec, go, startHTTPSServer, ListenAndServe, Serve_ends, serve_returns,
    send, Notify, select_quit, select_err, after_http_Shutdown,
    after_https_Shutdown, Shutdown_call, Shutdown_result, log_Fatal,
    Chan.offer, Chan.poll in Hex.
  destruct pc; simpl in *; try discriminate;
  destruct a as [[] []|[] ?|[]|?| | |[]]; simpl in Hex;
  repeat case_match; simplify_eq/=.
  all: split; simpl;
    [ spawned_goal Hsp1 Hsp2 | listens_goal Hsp1 Hsp2
    | sent_goal Hst1 Hst2 Hsend1 Hsend2
    | returned_goal Hrt1 Hrt2 Hsv1 Hsv2
    | serving_goal Hsv1 Hsv2 ].
Qed.

Lemma Invs_run conf fs sched :
  forall s, Inv s -> SigInv s -> TaskInv s ->
            SigInv (run conf fs s sched) /\ TaskInv (run conf fs s sched).
Proof.
  induction sched as [|a sched IH]; intros s Hs Hq Ht; simpl; [done|].
  destruct (exec conf fs s a) as [s'|] eqn:Hex; simpl; [|by apply IH].
  apply IH; [by eapply Inv_exec | by eapply SigInv_exec | by eapply TaskInv_exec].
Qed.

Lemma SigInv_main conf fs sched : SigInv (main conf fs sched).
Proof. apply Invs_run; [apply Inv_initial | apply SigInv_initial | apply TaskInv_initial]. Qed.

Lemma TaskInv_main conf fs sched : TaskInv (main conf fs sched).
Proof. apply Invs_run; [apply Inv_initial | apply SigInv_initial | apply TaskInv_initial]. Qed.

Lemma listens_In srv tls t :
  In (EvListenAndServe srv tls) t -> (1 <= listens srv t)%nat.
Proof.
  unfold listens. induction t as [|e t IH]; simpl; [done|].
  intros [->|Hin]; simpl.
  - rewrite bool_decide_eq_true_2 by done. simpl. lia.
  - specialize (IH Hin). destruct (is_listen srv e); simpl; lia.
Qed.

(** ** More on every run *)

Lemma signals_In t sig : In sig (signals t) <-> In (EvSignal sig) t.
Proof.
  unfold signals. rewrite <- !list_elem_of_In, list_elem_of_omap. split.
  - intros (e & He & Hs). by destruct e; simplify_eq.
  - intros He. by exists (EvSignal sig).
Qed.

Lemma head_signals_In t sig : head (signals t) = Some sig -> In (EvSignal sig) t.
Proof.
  intros Hh. apply signals_In. destruct (signals t); simplify_eq/=. by left.
Qed.

Lemma sends_coord t : sends (List.filter coord t) = sends t.
Proof.
  unfold sends. induction t as [|e t IH]; simpl; [done|].
  destruct e; simpl; congruence.
Qed.

Lemma run_app conf fs sched1 sched2 : forall s,
  run conf fs s (sched1 ++ sched2) = run conf fs (run conf fs s sched1) sched2.
Proof. induction sched1 as [|a sched1 IH]; intros s; simpl; [done|]. apply IH. Qed.

Lemma quit_path conf fs s sig o1 o2 :
  Chan.cap (quit s) = 1%nat -> (length (Chan.buf (quit s)) <= 1)%nat ->
  main_pc s = MSelect ->
  main_pc (run conf fs s [ASignal sig; ASelectQuit; AShutdownReturn o1;
                          AShutdownReturn o2])
  = MExited (status_after_stops o1 o2).
Proof.
  intros Hcap Hlen Hpc. destruct s as [pc hp hsp hs hss ec [c b] tr]; simpl in *.
  subst pc c. unfold exec, Notify, Chan.offer. simpl.
  destruct b as [|x [|y b]]; simpl in *; [| |lia];
    destruct o1, o2; reflexivity.
Qed.

Section More.

Variable conf : Config.
Variable fs : gset string.

(** X1: [quit] never holds more than one signal; a signal delivered while
    main waits in the select keeps [case <-quit] enabled; and the signal
    main takes is the first one that was delivered. *)
Theorem first_signal_is_taken sched :
  let s := main conf fs sched in
  (length (Chan.buf (quit s)) <= 1)%nat
  /\ (forall sig, main_pc s = MSelect -> In (EvSignal sig) (trace s) ->
        exists s', exec conf fs s ASelectQuit = Some s')
  /\ (forall sig, In (EvSelectQuit sig) (trace s) ->
        exists pre post, trace s = pre ++ EvSelectQuit sig :: post
          /\ head (signals pre) = Some sig).
Proof.
  intros s. destruct (SigInv_main conf fs sched) as [Hcap Hpend _ Htk Hlen].
  fold s in Hcap, Hpend, Htk, Hlen. split; [done|]. split; [|done].
  intros sig Hpc Hin. specialize (Hpend Hpc).
  apply signals_In in Hin. unfold exec, select_quit, Chan.poll. rewrite Hpc, Hpend.
  destruct (signals (trace s)); [done|]. simpl. by eexists.
Qed.

(** X2: nothing ends by itself.  A [Shutdown] call comes after a delivered
    signal; an error received from [errChan] was returned by a
    ListenAndServe that had been entered; and the process ends only after a
    signal was delivered or a ListenAndServe returned. *)
Theorem nothing_ends_by_itself sched :
  let s := main conf fs sched in
  (forall srv c, In (EvShutdownCall srv c) (trace s) ->
     exists sig, In (EvSignal sig) (trace s))
  /\ (forall err, In (EvSelectErr err) (trace s) ->
        exists srv tls, In (EvListenAndServe srv tls) (trace s)
          /\ In (EvServeReturn srv err) (trace s))
  /\ (forall code, main_pc s = MExited code ->
        (exists sig, In (EvSignal sig) (trace s))
        \/ (exists srv err, In (EvServeReturn srv err) (trace s))).
Proof.
  intros s. destruct (trace_phase conf fs sched) as (p & Hpc & Htr & _).
  pose proof (SigInv_main conf fs sched) as HS.
  pose proof (TaskInv_main conf fs sched) as HT. fold s in Hpc, Htr, HS, HT.
  assert (Hin : forall e, coord e = true -> In e (trace s) <-> In e (phase_trace p)).
  { intros e He. rewrite <- Htr. split; [by apply In_coord_trace | apply coord_trace_In]. }
  assert (Hquit : forall sig, In (EvSelectQuit sig) (phase_trace p) ->
                              exists sig', In (EvSignal sig') (trace s)).
  { intros sig H. apply Hin in H; [|done].
    destruct (sig_taken _ HS _ H) as (pre & post & Heq & Hh).
    exists sig. rewrite Heq. apply in_app_iff. left. by apply head_signals_In. }
  assert (Hsent : forall srv err, In (EvSend srv err) (phase_trace p) ->
                  exists tls, In (EvListenAndServe srv tls) (trace s)
                    /\ In (EvServeReturn srv err) (trace s)).
  { intros srv err H. apply Hin in H; [|done].
    apply (task_sent _ HT) in H. destruct (task_returned _ HT _ _ H) as [tls Hl].
    by exists tls. }
  split; [|split].
  - intros srv c H. apply Hin in H; [|done].
    destruct p; in_cases H; apply (Hquit sig); simpl; auto.
  - intros err H. apply Hin in H; [|done].
    destruct p; in_cases H.
    destruct (Hsent srv err) as (tls & ? & ?); [simpl; auto|]. by exists srv, tls.
  - intros code Hex. rewrite Hex in Hpc.
    destruct p; simplify_eq/=;
      first [ left; apply (Hquit sig); simpl; by auto
            | right; destruct (Hsent srv err) as (tls & ? & ?); [simpl; auto|];
              by exists srv, err ].
Qed.

(** X3: a listener is started at most once.  In every run ListenAndServe,
    or ListenAndServeTLS, is entered at most once on each server: not at all
    while its goroutine has not run, and once when it serves. *)
Theorem listener_started_at_most_once sched srv :
  let s := main conf fs sched in
  (listens srv (trace s) <= 1)%nat
  /\ (task s srv = TSpawned -> listens srv (trace s) = 0%nat)
  /\ (task s srv = TServing -> listens srv (trace s) = 1%nat).
Proof.
  intros s. pose proof (TaskInv_main conf fs sched) as HT. fold s in HT.
  pose proof (task_listens _ HT srv) as Hle.
  split; [done|]. split; [apply (task_spawned _ HT)|].
  intros Hs. destruct (task_serving _ HT _ Hs) as [tls Hin].
  apply listens_In in Hin. lia.
Qed.

(** X4: at most one error is ever received.  In every run at most one value
    goes through [errChan]; what the other goroutine has to send is never
    taken. *)
Theorem at_most_one_error_received sched :
  let s := main conf fs sched in
  (sends (trace s) <= 1)%nat
  /\ forall srv err srv' err',
       In (EvSend srv err) (trace s) -> In (EvSend srv' err') (trace s) ->
       srv = srv' /\ err = err'.
Proof.
  intros s. destruct (trace_phase conf fs sched) as (p & _ & Htr & _). fold s in Htr.
  split.
  - rewrite <- sends_coord. fold (coord_trace s). rewrite Htr.
    destruct p; vm_compute; lia.
  - intros srv err srv' err' H H'.
    apply In_coord_trace in H; [|done]. apply In_coord_trace in H'; [|done].
    rewrite Htr in H, H'. destruct p; in_cases H; by in_cases H'.
Qed.

(** X5: while main waits in the select, the process can always be stopped:
    a signal, [case <-quit] and the return of the stop calls end it, with
    status 0 when both stops drained and status 1 otherwise, whatever the
    listeners have done before. *)
Theorem signal_always_stops sched sig o1 o2 :
  main_pc (main conf fs sched) = MSelect ->
  main_pc (main conf fs (sched ++ [ASignal sig; ASelectQuit;
                                   AShutdownReturn o1; AShutdownReturn o2]))
  = MExited (status_after_stops o1 o2).
Proof.
  intros Hpc. unfold main. rewrite run_app.
  destruct (SigInv_main conf fs sched) as [Hcap _ _ _ Hlen].
  by apply quit_path.
Qed.

(** X8: when [httpServer.Shutdown] has returned nil, [Shutdown] is called on
    [httpsServer], whether or not the secure listener was ever started. *)
Theorem https_stop_follows_http_stop sched :
  In (EvShutdownReturn httpServer None) (trace (main conf fs sched)) ->
  In (EvShutdownCall httpsServer ctx) (trace (main conf fs sched)).
Proof.
  intros H. destruct (trace_phase conf fs sched) as (p & _ & Htr & _).
  apply In_coord_trace in H; [|done]. apply coord_trace_In.
  rewrite Htr in H |- *. destruct p; in_cases H; simpl; auto 10.
Qed.

End More.

(** ** The set-up *)

Ltac run_setup :=
  unfold Setup.setup, Setup.load, Setup.must, Setup.call, Setup.bind, Setup.ret.

(** What the set-up comes to, whatever the other packages answer. *)
Lemma setup_cases w :
  match Setup.setup w with
  | (calls, inr conf) =>
      Setup.config w = Some conf
      /\ (forall c, In c (Setup.script conf) -> Setup.fails w c = None)
      /\ calls = Setup.LoadConfigFromEnvironment :: Setup.script conf
                 ++ [Setup.routes_Setup 4194304 (Setup.Origin conf); Setup.go_RunListener]
  | (calls, inl msg) =>
      (Setup.config w = None /\ calls = [Setup.LoadConfigFromEnvironment])
      \/ exists conf c err, Setup.config w = Some conf
           /\ In c (Setup.script conf) /\ Setup.fails w c = Some err
  end.
Proof.
  run_setup. destruct (Setup.config w) as [conf|]; simpl; [|by left].
  repeat match goal with
         | |- context [Setup.fails w ?c] =>
             let E := fresh "E" in
             destruct (Setup.fails w c) as [err|] eqn:E; simpl;
             [ right; exists conf, c, err; by repeat split; simpl; auto 10 | ]
         end.
  repeat split. intros c Hc. in_cases Hc; done.
Qed.

Section SetupTheorems.

Variable w : Setup.World.

(** X9: the set-up stops at the first failure.  When a call of the set-up
    returns an error and every call before it returned nil, the process ends
    with the message of that error, and no later call is made. *)
Theorem setup_stops_at_first_failure conf pre c post err :
  Setup.config w = Some conf ->
  Setup.script conf = pre ++ c :: post ->
  (forall c', In c' pre -> Setup.fails w c' = None) ->
  Setup.fails w c = Some err ->
  Setup.setup w
  = (Setup.LoadConfigFromEnvironment :: pre ++ [c], inl (Setup.fatal_message c err)).
Proof.
  intros Hconf Hscript Hpre Hc. unfold Setup.script in Hscript.
  run_setup. rewrite Hconf. simpl.
  repeat (destruct pre as [|? pre]; simplify_eq/=);
    repeat match goal with
           | |- context [Setup.fails w ?c] =>
               first [ rewrite Hc | rewrite (Hpre c) by (simpl; auto 10) ]; simpl
           end;
    reflexivity.
Qed.

(** X10: the whole of main ends with status 0 only if every call of the
    set-up returned nil, a signal was delivered and both [Shutdown] calls
    returned nil. *)
Theorem clean_exit_needs_everything fs sched :
  Setup.exit_code (Setup.program w fs sched) = Some 0%Z ->
  exists conf, Setup.config w = Some conf
    /\ (forall c, In c (Setup.script conf) -> Setup.fails w c = None)
    /\ (exists sig, In (EvSignal sig) (trace (main (Setup.listeners conf) fs sched)))
    /\ In (EvShutdownReturn httpServer None) (trace (main (Setup.listeners conf) fs sched))
    /\ In (EvShutdownReturn httpsServer None) (trace (main (Setup.listeners conf) fs sched)).
Proof.
  unfold Setup.program, Setup.exit_code. pose proof (setup_cases w) as H.
  destruct (Setup.setup w) as [calls [msg|conf]]; [done|].
  destruct H as (Hconf & Hok & _). intros Hex.
  exists conf. split; [done|]. split; [done|].
  set (s := main (Setup.listeners conf) fs sched) in *.
  destruct (main_pc s) eqn:Hpc; simplify_eq.
  destruct (trace_phase (Setup.listeners conf) fs sched) as (p & Hp & Htr & _).
  fold s in Hp, Htr. rewrite Hpc in Hp.
  destruct p; simplify_eq/=.
  assert (Hq : In (EvSelectQuit sig) (trace s)).
  { apply coord_trace_In. rewrite Htr. simpl. auto. }
  destruct (sig_taken _ (SigInv_main (Setup.listeners conf) fs sched) _ Hq)
    as (pre & post & Heq & Hh). fold s in Heq.
  split; [|split].
  - exists sig. rewrite Heq. apply in_app_iff. left. by apply head_signals_In.
  - apply coord_trace_In. rewrite Htr. simpl. auto.
  - apply coord_trace_In. rewrite Htr. simpl. auto 10.
Qed.

End SetupTheorems.

(** ** The probe in a directory written with its closing separator *)

Lemma Join_in_closed_directory certDir name :
  certDir = "" \/ (exists dir, certDir = dir +:+ "/") ->
  filepath.Join [certDir +:+ name] = filepath.Join [certDir; name].
Proof.
  intros [->|[dir ->]]; [|apply Join_after_separator].
  change ("" +:+ name) with name. simpl. by case_bool_decide.
Qed.

(** X6: when [CertDir] is empty or ends in a separator, the goroutine of
    line 95 starts the secure listener exactly when both files are in the
    directory, with these two files; otherwise it logs the notice and
    returns. *)
Theorem probe_in_closed_directory conf fs s o s' :
  CertDir conf = "" \/ (exists dir, CertDir conf = dir +:+ "/") ->
  exec conf fs s (AGo httpsServer o) = Some s' ->
  let cert := spec_cert_path (CertDir conf) in
  let key := spec_key_path (CertDir conf) in
  if decide (cert ∈ fs /\ key ∈ fs)
  then s' = ListenAndServe httpsServer (Some (cert, key)) o
              (emit [EvLog ("HTTPS Server starting on: " +:+ Addr (HTTPSPort conf))] s)
  else s' = set_task httpsServer TDone
              (emit [EvLog (no_material_notice (CertDir conf))] s).
Proof.
  intros Hdir Hex cert key. unfold exec, go, startHTTPSServer in Hex.
  rewrite !(Join_in_closed_directory _ _ Hdir) in Hex.
  fold (spec_cert_path (CertDir conf)) (spec_key_path (CertDir conf)) in Hex.
  fold cert key in Hex. unfold os.Stat in Hex.
  destruct (main_pc s); try done; simpl in Hex;
    destruct (https_pc s); simplify_eq;
    repeat case_decide; naive_solver.
Qed.

(** ** More runs *)

Lemma signal_always_stops_witness :
  main_pc (main conf_slash fs_in_dir
             ([AGo httpsServer Listening; AGo httpServer Listening]
              ++ [ASignal SIGINT; ASelectQuit;
                  AShutdownReturn Drained; AShutdownReturn Drained]))
  = MExited 0.
Proof.
  by apply (signal_always_stops conf_slash fs_in_dir
              [AGo httpsServer Listening; AGo httpServer Listening]
              SIGINT Drained Drained).
Defined.

Lemma probe_in_closed_directory_witness :
  In (EvListenAndServe httpsServer (Some ("/certs/cert.pem", "/certs/key.pem")))
     (trace (main conf_slash fs_in_dir [AGo httpsServer Listening])).
Proof.
  pose proof (probe_in_closed_directory conf_slash fs_in_dir initial Listening
                (main conf_slash fs_in_dir [AGo httpsServer Listening])
                (or_intror (ex_intro _ "/certs" eq_refl)) eq_refl) as H.
  simpl in H. destruct (decide _) as [_|Hn] in H.
  - rewrite H. vm_compute. auto.
  - exfalso. apply Hn.
    change (spec_cert_path (CertDir conf_slash)) with "/certs/cert.pem".
    change (spec_key_path (CertDir conf_slash)) with "/certs/key.pem".
    unfold fs_in_dir. set_solver.
Defined.

Lemma absent_never_starts_witness :
  (forall tls, ~ In (EvListenAndServe httpsServer tls)
                    (trace (main conf_no_slash fs_in_dir sched_plain_only)))
  /\ (forall err, ~ In (EvSend httpsServer err)
                       (trace (main conf_no_slash fs_in_dir sched_plain_only))).
Proof.
  apply (absent_never_starts conf_no_slash fs_in_dir). left. by vm_compute.
Defined.

Lemma https_stop_follows_http_stop_witness :
  task (main conf_no_slash fs_in_dir sched_plain_only) httpsServer = TDone
  /\ listens httpsServer (trace (main conf_no_slash fs_in_dir sched_plain_only)) = 0%nat
  /\ In (EvShutdownCall httpsServer ctx)
       (trace (main conf_no_slash fs_in_dir sched_plain_only)).
Proof.
  split; [by vm_compute|]. split; [by vm_compute|].
  apply (https_stop_follows_http_stop conf_no_slash fs_in_dir sched_plain_only).
  vm_compute. auto 10.
Defined.

Lemma setup_stops_at_first_failure_witness :
  Setup.setup world_without_storage
  = ([Setup.LoadConfigFromEnvironment; Setup.orm_Setup "db:5432";
      Setup.NewS3Storage "pictures" "http://localhost:3000"],
     inl "Error connecting to AWS S3: NoCredentialProviders").
Proof.
  eapply (setup_stops_at_first_failure world_without_storage _
            [Setup.orm_Setup "db:5432"]
            (Setup.NewS3Storage "pictures" "http://localhost:3000")).
  - reflexivity.
  - reflexivity.
  - intros c' Hc. in_cases Hc. reflexivity.
  - reflexivity.
Defined.

Lemma clean_exit_needs_everything_witness :
  exists sig, In (EvSignal sig) (trace (main conf_slash fs_in_dir sched_quit_clean)).
Proof.
  destruct (clean_exit_needs_everything world_ok fs_in_dir sched_quit_clean eq_refl)
    as (conf & Hconf & _ & Hsig & _).
  injection Hconf as <-. exact Hsig.
Defined.

(** ** The exit status *)




Section ExitStatus.

Variable conf : Config.
Variable fs : gset string.


End ExitStatus.


